(** * The movie collection manager and the genre recommender

    A shallow embedding of [server/controllers/moviesController.js]:
    the four collection handlers ([getMovieCollection],
    [addToMovieCollection], [updateMovieStatus],
    [deleteMovieFromCollection]) and the recommendation loop of
    [recommendMoviesByGenre].

    Conventions of the embedding.
    - External IDs are JavaScript numbers holding integers: [Z].
    - The document store is a finite map from the owning user's [_id] to
      the [movies] array of that user's collection document; it is
      assumed to answer every query ([findOne], [save] do not reject).
    - A handler either answers [res.status(s).json(body)] or forwards a
      thrown value to [next]; both are constructors of [Response].
    - A handler that can write takes the store and returns the store. *)

From Stdlib Require Import ZArith Ascii String List Lia.
From stdpp Require Import gmap strings list.

Open Scope string_scope.
Open Scope list_scope.
Open Scope nat_scope.

(** ** Data model *)

(** An entry of a collection's [movies] array. *)
Module SavedItem.
Record t := mk {
  id : Z;
  poster_path : string;
  title : string;
  genres : list string;
  status : string }.

Definition setStatus (s : string) (m : t) : t :=
  {| id := id m; poster_path := poster_path m; title := title m;
     genres := genres m; status := s |}.
End SavedItem.

(** An entry of [response.data.results] of the catalog's discover call. *)
Module CatalogItem.
Record t := mk {
  id : Z;
  title : string;
  poster_path : string;
  genre_ids : list Z }.
End CatalogItem.

(** ObjectId of a user, in its textual form. *)
Abbreviation UserId := string.

(** The collection store: [movieModel.findOne({ user: _id })] is the
  lookup at [_id], [null] being [None]. *)
Abbreviation DB := (gmap UserId (list SavedItem.t)).

(** Values that reach the [catch] clause of a handler. *)
Inductive Thrown :=
| Error (message : string)   (* [new Error(message)] *)
| TypeError                  (* a property read on [null] *)
| GenreParseError            (* [JSON.parse(genre).id] threw on a stored tag *)
| UpstreamError.             (* a discover call was rejected *)

Inductive Body :=
| Message (success : bool) (message : string)
| Movies (success : bool) (movies : list SavedItem.t)
| Results (movies : list CatalogItem.t).

Inductive Response :=
| Json (code : nat) (body : Body)   (* [res.json] answers with code 200 *)
| Next (error : Thrown).

(** ** Array helpers of the handlers *)

(** [Array.prototype.findIndex]; [-1] is [None]. *)
Fixpoint findIndex {A} (p : A -> bool) (l : list A) : option nat :=
match l with
| [] => None
| x :: l' => if p x then Some 0 else S <$> findIndex p l'
end.

(** [movie.id === movieId] *)
Definition hasId (movieId : Z) (movie : SavedItem.t) : bool :=
(SavedItem.id movie =? movieId)%Z.

(** [movie.title === title] *)
Definition hasTitle (title : string) (movie : SavedItem.t) : bool :=
String.eqb (SavedItem.title movie) title.

(** ** Collection manager *)

Section CollectionManager.

(** The subdocument schema of [movieModel] gives a pushed entry its
    status; the model file is not part of the sources, so the default
    is a parameter. *)
Variable defaultStatus : string.

Definition getMovieCollectionForUser (db : DB) (_id : UserId)
  : Thrown + list SavedItem.t :=
  match db !! _id with
  | None => inl (Error "Movie collection not found")
  | Some movieCol => inr movieCol
  end.

Definition getMovieCollection (db : DB) (_id : UserId) : Response :=
  match getMovieCollectionForUser db _id with
  | inr movieCol => Json 200 (Movies true movieCol)
  | inl error => Next error
  end.

(** The entry built by [movies.push({ id, poster_path: posterPath, title, genres })]. *)
Definition pushed (id : Z) (posterPath title : string) (genres : list string)
  : SavedItem.t :=
  SavedItem.mk id posterPath title genres defaultStatus.

Definition addToMovieCollection (db : DB) (_id : UserId)
    (id : Z) (posterPath title : string) (genres : list string)
  : Response * DB :=
  let movieCol := match db !! _id with Some c => c | None => [] end in
  match List.find (hasTitle title) movieCol with
  | Some _ =>
      (Json 400 (Message false "Movie already exists in collection"), db)
  | None =>
      let movieCol' := movieCol ++ [pushed id posterPath title genres] in
      (Json 200 (Message true "Movie added to collection"),
       <[_id := movieCol']> db)
  end.

Definition updateMovieStatus (db : DB) (_id : UserId)
    (movieId : Z) (status : string) : Response * DB :=
  match getMovieCollectionForUser db _id with
  | inl error => (Next error, db)
  | inr movieCol =>
      match findIndex (hasId movieId) movieCol with
      | None =>
          (Json 404 (Message false "Movie not found in user's collection"), db)
      | Some i =>
          let movieCol' := alter (SavedItem.setStatus status) i movieCol in
          (Json 200 (Message true "Movie status updated"),
           <[_id := movieCol']> db)
      end
  end.

Definition deleteMovieFromCollection (db : DB) (_id : UserId)
    (movieId : Z) : Response * DB :=
  match getMovieCollectionForUser db _id with
  | inl error => (Next error, db)
  | inr movieCol =>
      match findIndex (hasId movieId) movieCol with
      | None =>
          (Json 404 (Message false "Movie not found in user's collection"), db)
      | Some movieIndex =>
          (* [splice(movieIndex, 1)] *)
          let movieCol' := delete movieIndex movieCol in
          (Json 200 (Message true "Movie removed from collection"),
           <[_id := movieCol']> db)
      end
  end.

End CollectionManager.

(** ** Recommendation aggregator *)

(** An entry of the working genre list: a stored tag (a JSON text, the
    schema of [req.user.genres] is an array of strings) or [null]. *)
Abbreviation Genre := (option string).

(** [Boolean(genre)]: [null] and the empty string are falsy. *)
Definition truthy (genre : Genre) : bool :=
match genre with
| Some s => negb (String.eqb s "")
| None => false
end.

(** What one completed iteration of the loop saw (ghost data). *)
Record Pass := mkPass {
  userMovieIds : list Z;
  movies : list CatalogItem.t;
  filteredMovies : list CatalogItem.t }.

(** The observable effects so far (ghost data): the [with_genres] value
    of every discover request sent, and the completed iterations, both
    oldest first. *)
Record Log := mkLog {
  requests : list string;
  passes : list Pass }.

Record LoopState := mkLoop {
  genres : list Genre;
  recommendedMovies : list CatalogItem.t;
  moviesPerGenre : nat;
  log : Log }.

Inductive LoopEnd :=
| Aborted (error : Thrown) (l : Log)   (* an exception left the loop *)
| Exited (st : LoopState).             (* the loop condition failed *)

Definition maxMovies : nat := 20.

(** [userMovieIds.includes(id)] *)
Definition includes (ids : list Z) (id : Z) : bool := existsb (Z.eqb id) ids.

(** The callback of [movies.filter]. *)
Definition fresh (userMovieIds : list Z) (recommendedMovies : list CatalogItem.t)
  (movie : CatalogItem.t) : bool :=
negb (includes userMovieIds (CatalogItem.id movie)) &&
negb (match List.find
              (fun recMovie => (CatalogItem.id recMovie =? CatalogItem.id movie)%Z)
              recommendedMovies with
      | Some _ => true
      | None => false
      end).

(** [userMovies ? userMovies.movies.map((movie) => movie.id) : []] *)
Definition savedIds (db : DB) (_id : UserId) : list Z :=
match db !! _id with
| Some userMovies => map SavedItem.id userMovies
| None => []
end.

(** The loop condition. *)
Definition continue (st : LoopState) : bool :=
(length (recommendedMovies st) <? maxMovies) && (length (genres st) <? 20).

Section Recommendation.

(** The world outside the handler:
    - [genreId s] is the text [JSON.parse(s).id] puts in the URL for a
      stored tag [s], [None] when evaluating it throws;
    - [discover k i g] is [response.data.results] of the [i]-th request
      of iteration [k], sent with [with_genres=g]; [None] when the
      request is rejected;
    - [store k] is the collection store as iteration [k] reads it. *)
Variable genreId : string -> option string.
Variable discover : nat -> nat -> string -> option (list CatalogItem.t).
Variable store : nat -> DB.
Variable _id : UserId.

(** [JSON.parse(genre).id]: [JSON.parse(null)] is [null], and reading
    [id] of [null] throws a TypeError. *)
Definition withGenres (genre : Genre) : Thrown + string :=
match genre with
| None => inl TypeError
| Some s =>
    match genreId s with
    | Some g => inr g
    | None => inl GenreParseError
    end
end.

(** [genres.map((genre) => axios.get(...))]: the requests go out left
    to right until the callback throws. *)
Fixpoint sendAll (gs : list Genre) : list string * option Thrown :=
match gs with
| [] => ([], None)
| genre :: gs' =>
    match withGenres genre with
    | inl error => ([], Some error)
    | inr g => let '(sent, thrown) := sendAll gs' in (g :: sent, thrown)
    end
end.

(** [await Promise.all(moviesPromises)], then [response.data.results]
    of each. *)
Fixpoint awaitAll (k i : nat) (sent : list string)
  : option (list (list CatalogItem.t)) :=
match sent with
| [] => Some []
| g :: sent' =>
    match discover k i g, awaitAll k (S i) sent' with
    | Some results, Some rest => Some (results :: rest)
    | _, _ => None
    end
end.

(** The body of the [while] loop. *)
Definition iteration (st : LoopState) : Thrown * Log + LoopState :=
let k := length (passes (log st)) in
let '(sent, thrown) := sendAll (genres st) in
let requests' := requests (log st) ++ sent in
match thrown with
| Some error => inl (error, mkLog requests' (passes (log st)))
| None =>
    match awaitAll k 0 sent with
    | None => inl (UpstreamError, mkLog requests' (passes (log st)))
    | Some moviesResponses =>
        let movies := flat_map (take (moviesPerGenre st)) moviesResponses in
        let userMovieIds := savedIds (store k) _id in
        let filteredMovies :=
          List.filter (fresh userMovieIds (recommendedMovies st)) movies in
        let recommendedMovies' :=
          take maxMovies (recommendedMovies st ++ filteredMovies) in
        let log' :=
          mkLog requests'
                (passes (log st) ++ [mkPass userMovieIds movies filteredMovies]) in
        if length filteredMovies =? 0
        then inr (mkLoop (genres st ++ [None]) recommendedMovies' 5 log')
        else inr (mkLoop (genres st) recommendedMovies' 10 log')
    end
end.

(** The [while] loop, with a bound on the number of iterations. *)
Fixpoint loop (fuel : nat) (st : LoopState) : option LoopEnd :=
if continue st then
  match fuel with
  | O => None
  | S fuel' =>
      match iteration st with
      | inl (error, l) => Some (Aborted error l)
      | inr st' => loop fuel' st'
      end
  end
else Some (Exited st).

(** The state before the loop: [genres = req.user.genres.filter(Boolean)]. *)
Definition start (userGenres : list Genre) : LoopState :=
mkLoop (List.filter truthy userGenres) [] 10 (mkLog [] []).

(** Iterations left at most: each one lengthens [recommendedMovies] or
    [genres]. *)
Definition budget (st : LoopState) : nat :=
(maxMovies - length (recommendedMovies st)) + (20 - length (genres st)).

Definition recommendMoviesByGenre (userGenres : list Genre)
  : option (Response * Log) :=
match loop 40 (start userGenres) with
| None => None
| Some (Aborted error l) => Some (Next error, l)
| Some (Exited st) =>
    if length (recommendedMovies st) =? 0
    then Some (Json 400 (Message false "No recommended movies found"), log st)
    else Some (Json 200 (Results (recommendedMovies st)), log st)
end.

End Recommendation.

(** Where a recommended movie comes from: a completed iteration whose
    filter let it through, against the saved ids read in that
    iteration. *)
Definition traced (store : nat -> DB) (_id : UserId)
  (recommended : list CatalogItem.t) (l : Log) : Prop :=
forall m, In m recommended ->
  exists k p,
    passes l !! k = Some p /\ In m (filteredMovies p) /\
    userMovieIds p = savedIds (store k) _id /\
    ~ In (CatalogItem.id m) (savedIds (store k) _id).

(** The titles of a collection are pairwise distinct. *)
Definition distinctTitles (movieCol : list SavedItem.t) : Prop :=
List.NoDup (map SavedItem.title movieCol).

(** Every collection of the store has pairwise distinct titles. *)
Definition wellKept (db : DB) : Prop :=
forall _id movieCol, db !! _id = Some movieCol -> distinctTitles movieCol.

(** The external ids of a list of catalog entries are pairwise distinct. *)
Definition distinctIds (ms : list CatalogItem.t) : Prop :=
List.NoDup (map CatalogItem.id ms).

(** A movie the catalog offered for one of the user's tags: it is among
    the first ten results of the answer to a request sent with the id of
    that tag. *)
Definition offered (genreId : string -> option string)
  (discover : nat -> nat -> string -> option (list CatalogItem.t))
  (userGenres : list Genre) (m : CatalogItem.t) : Prop :=
exists s g k i results,
  In (Some s) userGenres /\ genreId s = Some g /\
  discover k i g = Some results /\ In m (take 10 results).

(** The log at the end of the loop. *)
Definition endLog (e : LoopEnd) : Log :=
match e with
| Aborted _ l => l
| Exited st => log st
end.

(** ** Sample data *)

Module Sample.

(** A stored genre tag, the JSON text of an object with an [id] and a
    [name]. *)
Definition quote : string := String "034"%char "".

Definition tag (id name : string) : string :=
("{" ++ quote ++ "id" ++ quote ++ ":" ++ id ++ "," ++
 quote ++ "name" ++ quote ++ ":" ++ quote ++ name ++ quote ++ "}")%string.

Definition action : string := tag "28" "Action".
Definition adventure : string := tag "12" "Adventure".
Definition comedy : string := tag "35" "Comedy".

(** [JSON.parse(s).id] on the three tags above. *)
Definition genreId (s : string) : option string :=
if String.eqb s action then Some "28"
else if String.eqb s adventure then Some "12"
else if String.eqb s comedy then Some "35"
else None.

Definition film (n : Z) : CatalogItem.t :=
CatalogItem.mk n "Film" "/poster.jpg" [28%Z].

(** A catalog with ten action films, 1 to 10, ten adventure films, 5 to
    14, and ten comedies, 20 to 29, the same at every call. *)
Definition discover (k i : nat) (g : string) : option (list CatalogItem.t) :=
if String.eqb g "28" then Some (map film (seqZ 1 10))
else if String.eqb g "12" then Some (map film (seqZ 5 10))
else if String.eqb g "35" then Some (map film (seqZ 20 10))
else Some [].

(** A store without any collection. *)
Definition emptyStore (k : nat) : DB := ∅.

Definition inception : SavedItem.t :=
SavedItem.mk 27205 "/inception.jpg" "Inception" ["Action"] "to-watch".

Definition heat : SavedItem.t :=
SavedItem.mk 949 "/heat.jpg" "Heat" ["Crime"] "watched".

(** One user, two saved films. *)
Definition db : DB := {[ "u1" := [inception; heat] ]}.

(** The same store at every read. *)
Definition sameStore (k : nat) : DB := db.

(** A user who saved film 3 of the catalog. *)
Definition third : SavedItem.t :=
SavedItem.mk 3 "/poster.jpg" "Film" ["Action"] "watched".

Definition storeWithThird (k : nat) : DB := {[ "u1" := [third] ]}.

(** The loop after an iteration that found nothing new for a user with
    the action tag. *)
Definition widened : LoopState :=
mkLoop [Some action; None] (map film (seqZ 1 10)) 5 (mkLog ["28"; "28"] []).

(** Twenty stored tags. *)
Definition twenty : list Genre := replicate 20 (Some action).

(** A catalog that rejects every request. *)
Definition downCatalog (k i : nat) (g : string) : option (list CatalogItem.t) :=
None.

End Sample.

(** ** Facts about the array helpers *)

Lemma findIndex_None {A} (p : A -> bool) (l : list A) :
  findIndex p l = None <-> Forall (fun x => p x = false) l.
Proof.
  induction l as [|x l IH]; simpl.
  - split; [constructor | reflexivity].
  - destruct (p x) eqn:Hx.
    + split; [discriminate | intros H; inversion H; congruence].
    + destruct (findIndex p l); simpl.
      * split; [discriminate | ].
        intros H. inversion H; subst.
        assert (Some n = None) by (apply IH; assumption). discriminate.
      * split; [ | reflexivity].
        intros _. constructor; [exact Hx | apply IH; reflexivity].
Qed.

Lemma findIndex_Some {A} (p : A -> bool) (l : list A) (i : nat) :
  findIndex p l = Some i ->
  exists l1 x l2,
    l = l1 ++ x :: l2 /\ length l1 = i /\ p x = true /\
    Forall (fun y => p y = false) l1.
Proof.
  revert i. induction l as [|y l IH]; simpl; intros i H; [discriminate|].
  destruct (p y) eqn:Hy.
  - injection H as <-. exists [], y, l. repeat split; auto.
  - destruct (findIndex p l) as [j|]; simpl in H; [|discriminate].
    injection H as <-.
    destruct (IH j eq_refl) as (l1 & x & l2 & -> & Hlen & Hx & Hl1).
    exists (y :: l1), x, l2. simpl. repeat split; auto.
Qed.

Lemma splice_one {A} (l1 l2 : list A) (x : A) :
  delete (length l1) (l1 ++ x :: l2) = l1 ++ l2.
Proof. induction l1 as [|y l1 IH]; simpl; [reflexivity | now rewrite IH]. Qed.

Lemma find_hasTitle_None (title : string) (l : list SavedItem.t) :
  List.find (hasTitle title) l = None <->
  (forall saved, In saved l -> SavedItem.title saved <> title).
Proof.
  split.
  - intros H saved Hin Heq.
    pose proof (find_none _ _ H saved Hin) as Hf.
    unfold hasTitle in Hf. rewrite Heq, String.eqb_refl in Hf. discriminate.
  - intros H. destruct (List.find (hasTitle title) l) as [m|] eqn:Hf; [|reflexivity].
    apply find_some in Hf as [Hin Ht]. unfold hasTitle in Ht.
    apply String.eqb_eq in Ht. exfalso. exact (H m Hin Ht).
Qed.

Lemma hasId_false (movieId : Z) (l : list SavedItem.t) :
  Forall (fun m => hasId movieId m = false) l <->
  (forall m, In m l -> SavedItem.id m <> movieId).
Proof.
  rewrite List.Forall_forall. unfold hasId.
  split; intros H m Hin; specialize (H m Hin).
  - apply Z.eqb_neq. exact H.
  - apply Z.eqb_neq. exact H.
Qed.

(** ** The collection manager *)

Abbreviation conflict := (Json 400 (Message false "Movie already exists in collection")).
Abbreviation added := (Json 200 (Message true "Movie added to collection")).
Abbreviation missing := (Json 404 (Message false "Movie not found in user's collection")).
Abbreviation removed := (Json 200 (Message true "Movie removed from collection")).

Section CollectionManagerFacts.

Variable defaultStatus : string.

(** C3. Adding an item whose title is the title of an item already in
    the user's collection answers 400 with [success: false], and the
    store after the call is the store before it. *)
Theorem add_same_title_conflict (db : DB) (_id : UserId)
    (movieCol : list SavedItem.t) (saved : SavedItem.t)
    (id : Z) (posterPath title : string) (genres : list string) :
  db !! _id = Some movieCol ->
  In saved movieCol ->
  SavedItem.title saved = title ->
  addToMovieCollection defaultStatus db _id id posterPath title genres
  = (conflict, db).
Proof.
  intros Hdb Hin Ht. unfold addToMovieCollection. rewrite Hdb.
  destruct (List.find (hasTitle title) movieCol) eqn:Hf; [reflexivity|].
  exfalso. exact (proj1 (find_hasTitle_None title movieCol) Hf saved Hin Ht).
Qed.

(** C9. When no item of the user's collection has the title, the add
    succeeds and the next get answers the old list followed by an entry
    with the given id, title, poster path and genres and the default
    status. *)
Theorem add_then_get (db : DB) (_id : UserId)
    (id : Z) (posterPath title : string) (genres : list string) :
  (forall saved, In saved (default [] (db !! _id)) ->
                 SavedItem.title saved <> title) ->
  exists db',
    addToMovieCollection defaultStatus db _id id posterPath title genres
    = (added, db') /\
    exists movieCol,
      getMovieCollection db' _id = Json 200 (Movies true movieCol) /\
      movieCol = default [] (db !! _id)
                 ++ [SavedItem.mk id posterPath title genres defaultStatus] /\
      In (SavedItem.mk id posterPath title genres defaultStatus) movieCol.
Proof.
  intros Hfresh. unfold addToMovieCollection.
  assert (Hc : match db !! _id with Some c => c | None => [] end
               = default [] (db !! _id)) by (destruct (db !! _id); reflexivity).
  rewrite Hc.
  rewrite (proj2 (find_hasTitle_None title _) Hfresh).
  eexists. split; [reflexivity|].
  eexists. unfold getMovieCollection, getMovieCollectionForUser.
  rewrite lookup_insert_eq. split; [reflexivity|]. split; [reflexivity|].
  apply in_or_app. right. left. reflexivity.
Qed.

(** C7. When the collection has no item with the given id, or when the
    user has no collection, the status update fails without writing:
    404 in the first case, the error 'Movie collection not found' in the
    second; a get after the call answers what a get before it did. *)
Theorem update_missing_not_found (db : DB) (_id : UserId)
    (movieId : Z) (status : string) :
  (forall movieCol m, db !! _id = Some movieCol -> In m movieCol ->
                      SavedItem.id m <> movieId) ->
  exists r,
    updateMovieStatus db _id movieId status = (r, db) /\
    (is_Some (db !! _id) -> r = missing) /\
    (db !! _id = None -> r = Next (Error "Movie collection not found")) /\
    getMovieCollection (snd (updateMovieStatus db _id movieId status)) _id
    = getMovieCollection db _id.
Proof.
  intros Habsent. unfold updateMovieStatus, getMovieCollectionForUser.
  destruct (db !! _id) as [movieCol|] eqn:Hdb.
  - assert (Hnone : findIndex (hasId movieId) movieCol = None).
    { apply findIndex_None, hasId_false. intros m Hin. exact (Habsent _ m eq_refl Hin). }
    rewrite Hnone. eexists. split; [reflexivity|].
    split; [reflexivity|]. split; [discriminate | reflexivity].
  - eexists. split; [reflexivity|].
    split; [intros [? ?]; discriminate|]. split; reflexivity.
Qed.

(** What a remove does to the store: nothing, or it takes out the first
    entry whose id is the given one and keeps the rest in place. *)
Lemma delete_only_match (db : DB) (_id : UserId) (movieId : Z) :
  snd (deleteMovieFromCollection db _id movieId) = db \/
  exists l1 m l2,
    db !! _id = Some (l1 ++ m :: l2) /\ SavedItem.id m = movieId /\
    (forall m', In m' l1 -> SavedItem.id m' <> movieId) /\
    deleteMovieFromCollection db _id movieId
    = (removed, <[_id := l1 ++ l2]> db).
Proof.
  unfold deleteMovieFromCollection, getMovieCollectionForUser.
  destruct (db !! _id) as [movieCol|]; [|left; reflexivity].
  destruct (findIndex (hasId movieId) movieCol) as [i|] eqn:Hi; [|left; reflexivity].
  destruct (findIndex_Some _ _ _ Hi) as (l1 & m & l2 & -> & <- & Hm & Hl1).
  rewrite splice_one. right.
  exists l1, m, l2. repeat split.
  - apply Z.eqb_eq. exact Hm.
  - apply hasId_false. exact Hl1.
Qed.

Lemma filter_hasId_nil (movieId : Z) (l : list SavedItem.t) :
  List.filter (hasId movieId) l = [] <->
  Forall (fun m => hasId movieId m = false) l.
Proof.
  induction l as [|y l IH]; simpl.
  - split; [constructor | reflexivity].
  - destruct (hasId movieId y) eqn:Hy.
    + split; [discriminate | intros H; inversion H; congruence].
    + rewrite IH. split; [intros H; constructor; assumption | intros H; inversion H; assumption].
Qed.

Lemma delete_present_once (db : DB) (_id : UserId) (movieId : Z)
    (movieCol : list SavedItem.t) :
  db !! _id = Some movieCol ->
  length (List.filter (hasId movieId) movieCol) = 1 ->
  exists db1,
    deleteMovieFromCollection db _id movieId = (removed, db1) /\
    deleteMovieFromCollection db1 _id movieId = (missing, db1) /\
    (forall other, other <> _id -> db1 !! other = db !! other).
Proof.
  intros Hdb Hone.
  destruct (findIndex (hasId movieId) movieCol) as [i|] eqn:Hi.
  - destruct (findIndex_Some _ _ _ Hi) as (l1 & m & l2 & -> & <- & Hm & Hl1).
    exists (<[_id := l1 ++ l2]> db).
    assert (Hrest : Forall (fun y => hasId movieId y = false) (l1 ++ l2)).
    { apply List.Forall_app. split; [exact Hl1|].
      apply filter_hasId_nil.
      rewrite List.filter_app, List.length_app in Hone. simpl in Hone.
      rewrite Hm in Hone. simpl in Hone.
      destruct (List.filter (hasId movieId) l2); [reflexivity | simpl in Hone; lia]. }
    repeat split.
    + unfold deleteMovieFromCollection, getMovieCollectionForUser.
      rewrite Hdb, Hi, splice_one. reflexivity.
    + unfold deleteMovieFromCollection, getMovieCollectionForUser.
      rewrite lookup_insert_eq.
      rewrite (proj2 (findIndex_None _ _) Hrest). reflexivity.
    + intros other Hne. apply lookup_insert_ne. congruence.
  - exfalso. apply findIndex_None, filter_hasId_nil in Hi.
    rewrite Hi in Hone. discriminate.
Qed.

(** C8. With exactly one entry of the given id in the collection, the
    first remove succeeds and the second answers 404, the other users'
    collections being left alone; and whatever the store, a remove
    either writes nothing or takes out one entry, whose id is the given
    one, keeping every other entry in place. *)
Theorem delete_twice :
  (forall (db : DB) (_id : UserId) (movieId : Z) (movieCol : list SavedItem.t),
     db !! _id = Some movieCol ->
     length (List.filter (hasId movieId) movieCol) = 1 ->
     exists db1,
       deleteMovieFromCollection db _id movieId = (removed, db1) /\
       deleteMovieFromCollection db1 _id movieId = (missing, db1) /\
       (forall other, other <> _id -> db1 !! other = db !! other)) /\
  (forall (db : DB) (_id : UserId) (movieId : Z),
     snd (deleteMovieFromCollection db _id movieId) = db \/
     exists l1 m l2,
       db !! _id = Some (l1 ++ m :: l2) /\ SavedItem.id m = movieId /\
       (forall m', In m' l1 -> SavedItem.id m' <> movieId) /\
       deleteMovieFromCollection db _id movieId
       = (removed, <[_id := l1 ++ l2]> db)).
Proof. split; [exact delete_present_once | exact delete_only_match]. Qed.

End CollectionManagerFacts.

(** The four theorems above at the sample store. *)

Lemma add_same_title_conflict_sample :
  addToMovieCollection "to-watch" Sample.db "u1" 949 "/heat-1995.jpg" "Heat" ["Crime"]
  = (conflict, Sample.db).
Proof.
  apply (add_same_title_conflict "to-watch" Sample.db "u1"
           [Sample.inception; Sample.heat] Sample.heat).
  - reflexivity.
  - simpl. auto.
  - reflexivity.
Defined.

Lemma add_then_get_sample :
  exists db',
    addToMovieCollection "to-watch" Sample.db "u1" 603 "/matrix.jpg" "The Matrix" ["Action"]
    = (added, db') /\
    exists movieCol,
      getMovieCollection db' "u1" = Json 200 (Movies true movieCol) /\
      movieCol = default [] (Sample.db !! "u1")
                 ++ [SavedItem.mk 603 "/matrix.jpg" "The Matrix" ["Action"] "to-watch"] /\
      In (SavedItem.mk 603 "/matrix.jpg" "The Matrix" ["Action"] "to-watch") movieCol.
Proof.
  apply (add_then_get "to-watch" Sample.db "u1").
  vm_compute. intros saved [<-|[<-|[]]]; discriminate.
Defined.

Lemma update_missing_not_found_sample :
  exists r,
    updateMovieStatus Sample.db "u1" 603 "watched" = (r, Sample.db) /\
    (is_Some (Sample.db !! "u1") -> r = missing) /\
    (Sample.db !! "u1" = None -> r = Next (Error "Movie collection not found")) /\
    getMovieCollection (snd (updateMovieStatus Sample.db "u1" 603 "watched")) "u1"
    = getMovieCollection Sample.db "u1".
Proof.
  apply (update_missing_not_found Sample.db "u1" 603 "watched").
  intros movieCol m Hdb. vm_compute in Hdb. injection Hdb as <-.
  intros [<-|[<-|[]]]; discriminate.
Defined.

Lemma delete_twice_sample :
  exists db1,
    deleteMovieFromCollection Sample.db "u1" 949 = (removed, db1) /\
    deleteMovieFromCollection db1 "u1" 949 = (missing, db1) /\
    (forall other, other <> "u1" -> db1 !! other = Sample.db !! other).
Proof.
  apply (proj1 delete_twice Sample.db "u1" 949%Z [Sample.inception; Sample.heat]).
  - reflexivity.
  - reflexivity.
Defined.

(** ** The recommendation loop *)

Lemma includes_false (ids : list Z) (id : Z) :
  includes ids id = false <-> ~ In id ids.
Proof.
  unfold includes. split.
  - intros H Hin.
    assert (existsb (Z.eqb id) ids = true)
      by (apply existsb_exists; exists id; split; [exact Hin | apply Z.eqb_refl]).
    congruence.
  - intros H. destruct (existsb (Z.eqb id) ids) eqn:E; [|reflexivity].
    apply existsb_exists in E as (x & Hin & Hx). apply Z.eqb_eq in Hx. subst x.
    contradiction.
Qed.

Lemma fresh_not_saved (ids : list Z) (rec : list CatalogItem.t) (m : CatalogItem.t) :
  fresh ids rec m = true -> ~ In (CatalogItem.id m) ids.
Proof.
  unfold fresh. intros H. apply andb_prop in H as [H _].
  apply includes_false. now apply negb_true_iff in H.
Qed.

Section RecommendationFacts.

Variable genreId : string -> option string.
Variable discover : nat -> nat -> string -> option (list CatalogItem.t).
Variable store : nat -> DB.
Variable _id : UserId.

Local Abbreviation iteration := (iteration genreId discover store _id).
Local Abbreviation loop := (loop genreId discover store _id).
Local Abbreviation sendAll := (sendAll genreId).
Local Abbreviation recommendMoviesByGenre :=
  (recommendMoviesByGenre genreId discover store _id).

(** What a completed iteration computed, read off the body of the loop. *)
Lemma iteration_inr (st st' : LoopState) :
  iteration st = inr st' ->
  exists sent moviesResponses,
    sendAll (genres st) = (sent, None) /\
    awaitAll discover (length (passes (log st))) 0 sent = Some moviesResponses /\
    let movies := flat_map (take (moviesPerGenre st)) moviesResponses in
    let ids := savedIds (store (length (passes (log st)))) _id in
    let filtered := List.filter (fresh ids (recommendedMovies st)) movies in
    recommendedMovies st' = take maxMovies (recommendedMovies st ++ filtered) /\
    log st' = mkLog (requests (log st) ++ sent)
                    (passes (log st) ++ [mkPass ids movies filtered]) /\
    (length filtered = 0 ->
       genres st' = genres st ++ [None] /\ moviesPerGenre st' = 5) /\
    (length filtered <> 0 ->
       genres st' = genres st /\ moviesPerGenre st' = 10).
Proof.
  unfold iteration. cbv zeta.
  destruct (sendAll (genres st)) as [sent [error|]] eqn:Hsend;
    [discriminate|].
  destruct (awaitAll discover _ 0 sent) as [moviesResponses|] eqn:Hawait;
    [|discriminate].
  intros H. exists sent, moviesResponses.
  split; [reflexivity|]. split; [exact Hawait|].
  destruct (length _ =? 0) eqn:Hlen; injection H as <-; simpl.
  - apply Nat.eqb_eq in Hlen. repeat split; congruence.
  - apply Nat.eqb_neq in Hlen. repeat split; congruence.
Qed.

(** The sentinel is never sent to the catalog: the callback of
    [genres.map] throws on it. *)
Lemma sendAll_null (gs : list Genre) :
  In None gs ->
  exists sent error,
    sendAll gs = (sent, Some error) /\ length sent < length gs.
Proof.
  induction gs as [|g gs IH]; simpl; [intros []|].
  intros Hin. destruct g as [s|]; simpl.
  - destruct (genreId s) as [k|].
    + destruct Hin as [Hin|Hin]; [discriminate|].
      destruct (IH Hin) as (sent & error & -> & Hlt).
      exists (k :: sent), error. split; [reflexivity | simpl; lia].
    + exists [], GenreParseError. split; [reflexivity | simpl; lia].
  - exists [], TypeError. split; [reflexivity | simpl; lia].
Qed.

(** An iteration lengthens [recommendedMovies] or [genres]. *)
Lemma iteration_budget (st st' : LoopState) :
  continue st = true ->
  iteration st = inr st' ->
  budget st' < budget st.
Proof.
  intros Hc Hit. unfold continue in Hc. apply andb_prop in Hc as [Hr Hg].
  apply Nat.ltb_lt in Hr, Hg.
  destruct (iteration_inr _ _ Hit) as (sent & rs & _ & _ & Hrec & _ & Hzero & Hpos).
  cbv zeta in *. unfold budget, maxMovies in *. rewrite Hrec.
  rewrite length_take, List.length_app.
  set (n := length (List.filter _ _)) in *.
  destruct (Nat.eq_dec n 0) as [Hn|Hn].
  - destruct (Hzero Hn) as [-> _]. rewrite List.length_app. cbn [length]. lia.
  - destruct (Hpos Hn) as [-> _]. lia.
Qed.

Lemma continue_budget (st : LoopState) :
  continue st = true -> 0 < budget st.
Proof.
  unfold continue, budget. intros H. apply andb_prop in H as [Hr Hg].
  apply Nat.ltb_lt in Hr. lia.
Qed.

Lemma budget_le_40 (st : LoopState) : budget st <= 40.
Proof. unfold budget, maxMovies. lia. Qed.

Lemma loop_enough_fuel (fuel : nat) (st : LoopState) :
  budget st <= fuel -> exists e, loop fuel st = Some e.
Proof.
  revert st. induction fuel as [|fuel IH]; intros st Hb; simpl.
  - destruct (continue st) eqn:Hc; [|eauto].
    apply continue_budget in Hc. lia.
  - destruct (continue st) eqn:Hc; [|eauto].
    destruct (iteration st) as [[error l]|st'] eqn:Hit; [eauto|].
    apply IH. pose proof (iteration_budget _ _ Hc Hit). lia.
Qed.

Lemma loop_more_fuel (fuel fuel' : nat) (st : LoopState) (e : LoopEnd) :
  loop fuel st = Some e -> fuel <= fuel' -> loop fuel' st = Some e.
Proof.
  revert fuel' st. induction fuel as [|fuel IH]; intros fuel' st; simpl.
  - destruct (continue st) eqn:Hc; [discriminate|].
    intros H _. destruct fuel'; simpl; rewrite Hc; exact H.
  - destruct (continue st) eqn:Hc.
    + intros H Hle. destruct fuel' as [|fuel']; [lia|]. simpl. rewrite Hc.
      destruct (iteration st) as [[error l]|st']; [exact H|].
      apply IH; [exact H | lia].
    + intros H _. destruct fuel'; simpl; rewrite Hc; exact H.
Qed.

Lemma loop_exit (fuel : nat) (st st' : LoopState) :
  loop fuel st = Some (Exited st') -> continue st' = false.
Proof.
  revert st. induction fuel as [|fuel IH]; intros st; simpl.
  - destruct (continue st) eqn:Hc; [discriminate|]. intros [= <-]. exact Hc.
  - destruct (continue st) eqn:Hc; [|intros [= <-]; exact Hc].
    destruct (iteration st) as [[error l]|st1]; [discriminate|]. apply IH.
Qed.

Lemma continue_false (st : LoopState) :
  continue st = false <->
  20 <= length (recommendedMovies st) \/ 20 <= length (genres st).
Proof.
  unfold continue, maxMovies. rewrite andb_false_iff, !Nat.ltb_ge. reflexivity.
Qed.

(** X14. The loop ends from every state, by its condition or by a
    thrown error: some end is reached with any number of iterations
    allowed from [budget st], which is at most 40, on; an exit through
    the loop condition is at a state with 20 recommended movies or 20
    genres; and in such a state the loop stops without running the
    body. The handler always answers. *)
Theorem loop_terminates (st : LoopState) :
  (exists e, forall fuel, budget st <= fuel -> loop fuel st = Some e) /\
  budget st <= 40 /\
  (forall fuel st', loop fuel st = Some (Exited st') ->
     20 <= length (recommendedMovies st') \/ 20 <= length (genres st')) /\
  (20 <= length (recommendedMovies st) \/ 20 <= length (genres st) ->
     forall fuel, loop fuel st = Some (Exited st)) /\
  (forall userGenres, exists r, recommendMoviesByGenre userGenres = Some r).
Proof.
  split; [|split; [apply budget_le_40 | split; [|split]]].
  - destruct (loop_enough_fuel (budget st) st (le_n _)) as [e He].
    exists e. intros fuel Hle. exact (loop_more_fuel _ _ _ _ He Hle).
  - intros fuel st' H. apply continue_false. exact (loop_exit _ _ _ H).
  - intros H fuel. apply continue_false in H.
    destruct fuel; simpl; rewrite H; reflexivity.
  - intros userGenres. unfold recommendMoviesByGenre.
    destruct (loop_enough_fuel 40 (start userGenres) (budget_le_40 _)) as [e He].
    rewrite He. destruct e as [error l|st1]; [eauto|].
    destruct (length (recommendedMovies st1) =? 0); eauto.
Qed.

Lemma In_take {A} (n : nat) (l : list A) (x : A) : In x (take n l) -> In x l.
Proof.
  revert n. induction l as [|y l IH]; intros [|n]; simpl; try tauto.
  intros [->|H]; [left; reflexivity | right; exact (IH n H)].
Qed.

Lemma iteration_traced (st st' : LoopState) :
  traced store _id (recommendedMovies st) (log st) ->
  iteration st = inr st' ->
  traced store _id (recommendedMovies st') (log st').
Proof.
  intros Htr Hit.
  destruct (iteration_inr _ _ Hit) as (sent & rs & _ & _ & Hrec & Hlog & _).
  cbv zeta in *. rewrite Hrec, Hlog. clear Hrec Hlog Hit.
  intros m Hm. apply In_take, in_app_or in Hm. simpl. destruct Hm as [Hm|Hm].
  - destruct (Htr m Hm) as (k & p & Hk & Hrest).
    exists k, p. split; [|exact Hrest]. now apply lookup_app_l_Some.
  - apply List.filter_In in Hm as [Hm Hfresh].
    eexists _, _. split; [apply list_lookup_middle; reflexivity|]. simpl.
    split; [apply List.filter_In; split; assumption|].
    split; [reflexivity|]. exact (fresh_not_saved _ _ _ Hfresh).
Qed.

Lemma loop_traced (fuel : nat) (st st' : LoopState) :
  traced store _id (recommendedMovies st) (log st) ->
  loop fuel st = Some (Exited st') ->
  traced store _id (recommendedMovies st') (log st').
Proof.
  revert st. induction fuel as [|fuel IH]; intros st Htr; simpl.
  - destruct (continue st); [discriminate|]. intros [= <-]. exact Htr.
  - destruct (continue st); [|intros [= <-]; exact Htr].
    destruct (iteration st) as [[error l]|st1] eqn:Hit; [discriminate|].
    apply IH. exact (iteration_traced _ _ Htr Hit).
Qed.

(** What the handler answers, in terms of the end of the loop. *)
Lemma recommend_results (userGenres : list Genre)
    (ms : list CatalogItem.t) (l : Log) :
  recommendMoviesByGenre userGenres = Some (Json 200 (Results ms), l) ->
  exists st,
    loop 40 (start userGenres) = Some (Exited st) /\
    ms = recommendedMovies st /\ l = log st.
Proof.
  unfold recommendMoviesByGenre.
  destruct (loop 40 (start userGenres)) as [[error l'|st]|]; try discriminate.
  destruct (length (recommendedMovies st) =? 0); [discriminate|].
  intros [= <- <-]. exists st. auto.
Qed.

Lemma recommend_traced (userGenres : list Genre)
    (ms : list CatalogItem.t) (l : Log) :
  recommendMoviesByGenre userGenres = Some (Json 200 (Results ms), l) ->
  traced store _id ms l.
Proof.
  intros H. destruct (recommend_results _ _ _ H) as (st & Hloop & -> & ->).
  refine (loop_traced 40 (start userGenres) st _ Hloop).
  intros m' [].
Qed.

(** C4. Every movie of a successful answer passed the filter of a
    completed iteration, and its id is not among the saved ids the store
    gave in that iteration. *)
Theorem recommended_not_saved (userGenres : list Genre)
    (ms : list CatalogItem.t) (l : Log) (m : CatalogItem.t) :
  recommendMoviesByGenre userGenres = Some (Json 200 (Results ms), l) ->
  In m ms ->
  exists k p,
    passes l !! k = Some p /\ In m (filteredMovies p) /\
    userMovieIds p = savedIds (store k) _id /\
    ~ In (CatalogItem.id m) (savedIds (store k) _id).
Proof. intros H. exact (recommend_traced _ _ _ H m). Qed.

(** In particular, with a store that does not change during the call,
    no recommended movie is a saved one. *)
Lemma recommended_not_saved_fixed (db : DB) (userGenres : list Genre)
    (ms : list CatalogItem.t) (l : Log) (m : CatalogItem.t) :
  (forall k, store k = db) ->
  recommendMoviesByGenre userGenres = Some (Json 200 (Results ms), l) ->
  In m ms ->
  ~ In (CatalogItem.id m) (savedIds db _id).
Proof.
  intros Hfix H Hm.
  destruct (recommend_traced _ _ _ H m Hm) as (k & p & _ & _ & _ & Hnot).
  now rewrite Hfix in Hnot.
Qed.

(** The answer is cut to 20 movies. *)
Lemma loop_at_most_maxMovies (fuel : nat) (st st' : LoopState) :
  length (recommendedMovies st) <= maxMovies ->
  loop fuel st = Some (Exited st') ->
  length (recommendedMovies st') <= maxMovies.
Proof.
  revert st. induction fuel as [|fuel IH]; intros st Hle; simpl.
  - destruct (continue st); [discriminate|]. intros [= <-]. exact Hle.
  - destruct (continue st); [|intros [= <-]; exact Hle].
    destruct (iteration st) as [[error l]|st1] eqn:Hit; [discriminate|].
    apply IH.
    destruct (iteration_inr _ _ Hit) as (sent & rs & _ & _ & Hrec & _).
    cbv zeta in Hrec. rewrite Hrec, length_take. lia.
Qed.

Lemma recommend_at_most_20 (userGenres : list Genre)
    (ms : list CatalogItem.t) (l : Log) :
  recommendMoviesByGenre userGenres = Some (Json 200 (Results ms), l) ->
  length ms <= 20.
Proof.
  intros H. destruct (recommend_results _ _ _ H) as (st & Hloop & -> & _).
  refine (loop_at_most_maxMovies 40 (start userGenres) st _ Hloop).
  simpl. unfold maxMovies. lia.
Qed.

(** C10. With 20 or more truthy entries in the user's genre list the
    loop body never runs: no discover request is sent, no iteration
    completes, and the answer is 400 'No recommended movies found'. *)
Theorem twenty_genres_empty_result (userGenres : list Genre) :
  20 <= length (List.filter truthy userGenres) ->
  recommendMoviesByGenre userGenres
  = Some (Json 400 (Message false "No recommended movies found"), mkLog [] []).
Proof.
  intros H. unfold recommendMoviesByGenre.
  assert (Hc : continue (start userGenres) = false).
  { apply continue_false. right. exact H. }
  simpl. rewrite Hc. reflexivity.
Qed.

(** C2. With no truthy entry in the user's genre list, the first
    iteration sends no discover request and finds nothing, so it appends
    the null entry; the second iteration throws a TypeError on that
    entry, and the handler forwards it instead of answering 400. *)
Theorem no_genres_type_error (userGenres : list Genre) :
  List.filter truthy userGenres = [] ->
  recommendMoviesByGenre userGenres
  = Some (Next TypeError,
          mkLog [] [mkPass (savedIds (store 0) _id) [] []]).
Proof.
  intros H. unfold recommendMoviesByGenre, start.
  rewrite H. reflexivity.
Qed.

(** C5. An iteration that completes appends the null entry and sets
    [moviesPerGenre] to 5 when its filter kept nothing, and leaves the
    genres alone and sets [moviesPerGenre] to 10 otherwise; but an
    iteration that finds the null entry in the genre list throws before
    a request is sent for it, and completes nothing. *)
Theorem widening_then_abort (st : LoopState) :
  (forall st', iteration st = inr st' ->
     exists p,
       passes (log st') = passes (log st) ++ [p] /\
       (length (filteredMovies p) = 0 ->
          genres st' = genres st ++ [None] /\ moviesPerGenre st' = 5) /\
       (length (filteredMovies p) <> 0 ->
          genres st' = genres st /\ moviesPerGenre st' = 10)) /\
  (In None (genres st) ->
     exists error l,
       iteration st = inl (error, l) /\
       passes l = passes (log st) /\
       length (requests l) < length (requests (log st)) + length (genres st)).
Proof.
  split.
  - intros st' Hit.
    destruct (iteration_inr _ _ Hit) as (sent & rs & _ & _ & _ & Hlog & Hz & Hp).
    cbv zeta in *. eexists. rewrite Hlog. simpl. split; [reflexivity|].
    simpl. split; assumption.
  - intros Hin. destruct (sendAll_null _ Hin) as (sent & error & Hs & Hlt).
    unfold iteration. cbv zeta. rewrite Hs.
    eexists _, _. split; [reflexivity|]. simpl. split; [reflexivity|].
    rewrite List.length_app. lia.
Qed.

End RecommendationFacts.

(** ** The recommender at the sample catalog *)

(** C1. A user with the action and the adventure tag and no collection,
    at the sample catalog: the first iteration takes the ten action
    films and the ten adventure films as they come, the answer has 20
    entries, and films 5 to 10, which are in both lists, are in it
    twice. *)
Theorem recommend_repeats_id :
  exists l,
    recommendMoviesByGenre Sample.genreId Sample.discover Sample.emptyStore "u1"
      [Some Sample.action; Some Sample.adventure]
    = Some (Json 200 (Results (map Sample.film (seqZ 1 10 ++ seqZ 5 10))), l) /\
    requests l = ["28"; "12"] /\
    map Sample.film (seqZ 1 10 ++ seqZ 5 10) !! 4 = Some (Sample.film 5) /\
    map Sample.film (seqZ 1 10 ++ seqZ 5 10) !! 10 = Some (Sample.film 5).
Proof.
  eexists. split; [vm_compute; reflexivity|].
  split; [reflexivity|]. split; reflexivity.
Qed.

(** The scenario of one action tag, an empty collection and ten action
    films: the second iteration finds nothing new, the third throws on
    the null entry after the request for the action tag went out. *)
Example one_genre_type_error :
  exists l,
    recommendMoviesByGenre Sample.genreId Sample.discover Sample.emptyStore "u1"
      [Some Sample.action]
    = Some (Next TypeError, l) /\
    requests l = ["28"; "28"; "28"] /\ length (passes l) = 2.
Proof. eexists. split; [vm_compute; reflexivity|]. split; reflexivity. Qed.

(** C6. One action tag, an empty collection and ten action films, every
    request answered: the loop does not stop at 20 movies or at 20
    genres. The first iteration keeps the ten films, the second keeps
    nothing and appends the null entry, and the third, entered with 10
    movies and 2 genres, throws a TypeError; with any number of
    iterations allowed the loop never leaves through its condition. *)
Theorem loop_aborts_below_thresholds :
  exists st1 st2 l,
    iteration Sample.genreId Sample.discover Sample.emptyStore "u1"
      (start [Some Sample.action]) = inr st1 /\
    iteration Sample.genreId Sample.discover Sample.emptyStore "u1" st1
    = inr st2 /\
    length (recommendedMovies st2) = 10 /\ length (genres st2) = 2 /\
    continue st2 = true /\
    iteration Sample.genreId Sample.discover Sample.emptyStore "u1" st2
    = inl (TypeError, l) /\
    forall fuel,
      loop Sample.genreId Sample.discover Sample.emptyStore "u1" fuel
        (start [Some Sample.action]) = None \/
      loop Sample.genreId Sample.discover Sample.emptyStore "u1" fuel
        (start [Some Sample.action]) = Some (Aborted TypeError l).
Proof.
  eexists _, _, _.
  split; [vm_compute; reflexivity|]. split; [vm_compute; reflexivity|].
  split; [reflexivity|]. split; [reflexivity|]. split; [reflexivity|].
  split; [vm_compute; reflexivity|].
  intros [|[|[|fuel]]]; [left; reflexivity ..|right; vm_compute; reflexivity].
Qed.

Lemma recommended_not_saved_sample :
  exists ms l,
    recommendMoviesByGenre Sample.genreId Sample.discover Sample.storeWithThird "u1"
      [Some Sample.action; Some Sample.adventure; Some Sample.comedy]
    = Some (Json 200 (Results ms), l) /\
    In (Sample.film 4) ms /\
    exists k p,
      passes l !! k = Some p /\ In (Sample.film 4) (filteredMovies p) /\
      userMovieIds p = savedIds (Sample.storeWithThird k) "u1" /\
      ~ In (CatalogItem.id (Sample.film 4)) (savedIds (Sample.storeWithThird k) "u1").
Proof.
  eexists _, _. split; [vm_compute; reflexivity|].
  split; [simpl; tauto|].
  eapply (recommended_not_saved Sample.genreId Sample.discover Sample.storeWithThird "u1"
            [Some Sample.action; Some Sample.adventure; Some Sample.comedy]).
  - vm_compute. reflexivity.
  - simpl. tauto.
Defined.

Lemma twenty_genres_empty_result_sample :
  recommendMoviesByGenre Sample.genreId Sample.discover Sample.sameStore "u1"
    Sample.twenty
  = Some (Json 400 (Message false "No recommended movies found"), mkLog [] []).
Proof.
  apply (twenty_genres_empty_result Sample.genreId Sample.discover Sample.sameStore "u1"
           Sample.twenty).
  vm_compute. lia.
Defined.

Lemma no_genres_type_error_sample :
  recommendMoviesByGenre Sample.genreId Sample.discover Sample.sameStore "u1"
    [Some ""; None]
  = Some (Next TypeError,
          mkLog [] [mkPass (savedIds (Sample.sameStore 0) "u1") [] []]).
Proof.
  apply (no_genres_type_error Sample.genreId Sample.discover Sample.sameStore "u1"
           [Some ""; None]).
  reflexivity.
Defined.

Lemma widening_then_abort_sample :
  exists error l,
    iteration Sample.genreId Sample.discover Sample.emptyStore "u1" Sample.widened
    = inl (error, l) /\
    passes l = passes (log Sample.widened) /\
    length (requests l)
    < length (requests (log Sample.widened)) + length (genres Sample.widened).
Proof.
  apply (proj2 (widening_then_abort Sample.genreId Sample.discover Sample.emptyStore
                  "u1" Sample.widened)).
  simpl. tauto.
Defined.

(** ** More on the collection manager *)

Lemma findIndex_middle {A} (p : A -> bool) (l1 l2 : list A) (x : A) :
  Forall (fun y => p y = false) l1 -> p x = true ->
  findIndex p (l1 ++ x :: l2) = Some (length l1).
Proof.
  intros Hl1 Hx. induction Hl1 as [|y l1 Hy _ IH]; simpl.
  - now rewrite Hx.
  - now rewrite Hy, IH.
Qed.

Lemma alter_middle {A} (f : A -> A) (l1 l2 : list A) (x : A) :
  alter f (length l1) (l1 ++ x :: l2) = l1 ++ f x :: l2.
Proof. induction l1 as [|y l1 IH]; simpl; [reflexivity | f_equal; exact IH]. Qed.

Lemma setStatus_setStatus (s1 s2 : string) (m : SavedItem.t) :
  SavedItem.setStatus s2 (SavedItem.setStatus s1 m) = SavedItem.setStatus s2 m.
Proof. reflexivity. Qed.

Lemma hasId_setStatus (movieId : Z) (s : string) (m : SavedItem.t) :
  hasId movieId (SavedItem.setStatus s m) = hasId movieId m.
Proof. reflexivity. Qed.

Abbreviation updated := (Json 200 (Message true "Movie status updated")).

(** X1. A status update on a collection that has the id rewrites the
    status of the first entry with that id and nothing else: the other
    fields of that entry, the entries before and after it (later entries
    with the same id included) and their order are as before, and the
    next get shows the result. *)
Theorem update_first_match (db : DB) (_id : UserId) (movieId : Z)
    (status : string) (l1 l2 : list SavedItem.t) (m : SavedItem.t) :
  db !! _id = Some (l1 ++ m :: l2) ->
  (forall m', In m' l1 -> SavedItem.id m' <> movieId) ->
  SavedItem.id m = movieId ->
  updateMovieStatus db _id movieId status
  = (updated, <[_id := l1 ++ SavedItem.setStatus status m :: l2]> db) /\
  getMovieCollection (snd (updateMovieStatus db _id movieId status)) _id
  = Json 200 (Movies true (l1 ++ SavedItem.setStatus status m :: l2)).
Proof.
  intros Hdb Hl1 Hm.
  assert (Hup : updateMovieStatus db _id movieId status
                = (updated, <[_id := l1 ++ SavedItem.setStatus status m :: l2]> db)).
  { unfold updateMovieStatus, getMovieCollectionForUser. rewrite Hdb.
    rewrite findIndex_middle, alter_middle; [reflexivity | | ].
    - apply hasId_false. exact Hl1.
    - apply Z.eqb_eq. exact Hm. }
  split; [exact Hup|]. rewrite Hup. simpl.
  unfold getMovieCollection, getMovieCollectionForUser.
  now rewrite lookup_insert_eq.
Qed.

(** X2. Two status updates of the same id in a row leave the store and
    give the answer of the second one alone: the last status wins, and
    repeating an update changes nothing. *)
Theorem update_last_wins (db : DB) (_id : UserId) (movieId : Z)
    (s1 s2 : string) :
  updateMovieStatus (snd (updateMovieStatus db _id movieId s1)) _id movieId s2
  = updateMovieStatus db _id movieId s2.
Proof.
  unfold updateMovieStatus at 2. unfold getMovieCollectionForUser.
  destruct (db !! _id) as [movieCol|] eqn:Hdb; [|reflexivity].
  destruct (findIndex (hasId movieId) movieCol) as [i|] eqn:Hi; [|reflexivity].
  destruct (findIndex_Some _ _ _ Hi) as (l1 & m & l2 & -> & <- & Hm & Hl1).
  rewrite alter_middle. simpl.
  unfold updateMovieStatus, getMovieCollectionForUser.
  rewrite lookup_insert_eq, Hdb.
  rewrite !findIndex_middle, !alter_middle by assumption.
  now rewrite insert_insert_eq.
Qed.

Section CollectionManagerMore.

Variable defaultStatus : string.

Local Abbreviation addToMovieCollection := (addToMovieCollection defaultStatus).

Lemma add_fresh (db : DB) (_id : UserId)
    (id : Z) (posterPath title : string) (genres : list string) :
  (forall saved, In saved (default [] (db !! _id)) ->
                 SavedItem.title saved <> title) ->
  addToMovieCollection db _id id posterPath title genres
  = (added,
     <[_id := default [] (db !! _id)
              ++ [SavedItem.mk id posterPath title genres defaultStatus]]> db).
Proof.
  intros Hfresh. unfold addToMovieCollection.
  assert (Hc : match db !! _id with Some c => c | None => [] end
               = default [] (db !! _id)) by (destruct (db !! _id); reflexivity).
  rewrite Hc, (proj2 (find_hasTitle_None title _) Hfresh). reflexivity.
Qed.

(** X3. Adding an item whose title and id are both new to the
    collection and then removing that id gives back the collection as it
    was; when the user had a collection the whole store is as before,
    otherwise the user is left with an empty collection. *)
Theorem add_then_delete (db : DB) (_id : UserId)
    (id : Z) (posterPath title : string) (genres : list string) :
  (forall saved, In saved (default [] (db !! _id)) ->
                 SavedItem.title saved <> title /\ SavedItem.id saved <> id) ->
  exists db1,
    addToMovieCollection db _id id posterPath title genres = (added, db1) /\
    deleteMovieFromCollection db1 _id id
    = (removed, <[_id := default [] (db !! _id)]> db) /\
    (is_Some (db !! _id) -> <[_id := default [] (db !! _id)]> db = db).
Proof.
  intros Hnew. eexists. split.
  - apply add_fresh. intros saved Hin. exact (proj1 (Hnew saved Hin)).
  - split.
    + unfold deleteMovieFromCollection, getMovieCollectionForUser.
      rewrite lookup_insert_eq.
      rewrite findIndex_middle, splice_one.
      * rewrite app_nil_r, insert_insert_eq. reflexivity.
      * apply hasId_false. intros saved Hin. exact (proj2 (Hnew saved Hin)).
      * apply Z.eqb_refl.
    + intros [movieCol Hdb]. rewrite Hdb. simpl. now apply insert_id.
Qed.

(** X4. After a successful add, every further add of the same title,
    whatever its id, poster path and genres, answers 400 and leaves the
    store as the first add made it. *)
Theorem add_twice_conflict (db : DB) (_id : UserId)
    (id : Z) (posterPath title : string) (genres : list string) :
  (forall saved, In saved (default [] (db !! _id)) ->
                 SavedItem.title saved <> title) ->
  exists db1,
    addToMovieCollection db _id id posterPath title genres = (added, db1) /\
    forall id' posterPath' genres',
      addToMovieCollection db1 _id id' posterPath' title genres'
      = (conflict, db1).
Proof.
  intros Hfresh. eexists. split; [apply add_fresh; exact Hfresh|].
  intros id' posterPath' genres'. unfold addToMovieCollection.
  rewrite lookup_insert_eq.
  destruct (List.find (hasTitle title) _) eqn:Hf; [reflexivity|].
  exfalso.
  refine (proj1 (find_hasTitle_None title _) Hf
            (SavedItem.mk id posterPath title genres defaultStatus) _ eq_refl).
  apply in_or_app. right. left. reflexivity.
Qed.

Lemma NoDup_snoc {A} (l : list A) (x : A) :
  List.NoDup l -> ~ In x l -> List.NoDup (l ++ [x]).
Proof.
  induction l as [|y l IH]; simpl; intros Hnd Hx.
  - apply List.NoDup_cons; [intros [] | apply List.NoDup_nil].
  - apply List.NoDup_cons_iff in Hnd as [Hy Hnd].
    apply List.NoDup_cons_iff. split.
    + intros Hin. apply in_app_or in Hin as [Hin|[<-|[]]]; tauto.
    + apply IH; tauto.
Qed.

Lemma In_delete {A} (i : nat) (l : list A) (x : A) :
  In x (delete i l) -> In x l.
Proof.
  revert i. induction l as [|y l IH]; intros [|i]; simpl; try tauto.
  intros [->|H]; [left; reflexivity | right; exact (IH i H)].
Qed.

Lemma titles_delete (i : nat) (l : list SavedItem.t) :
  distinctTitles l -> distinctTitles (delete i l).
Proof.
  unfold distinctTitles. revert i.
  induction l as [|y l IH]; intros [|i]; simpl; intros Hnd; try assumption.
  - apply List.NoDup_cons_iff in Hnd. tauto.
  - apply List.NoDup_cons_iff in Hnd as [Hy Hnd].
    apply List.NoDup_cons_iff. split; [|exact (IH i Hnd)].
    intros Hin. apply Hy. apply in_map_iff in Hin as (z & Hz & Hin).
    apply in_map_iff. exists z. split; [exact Hz | exact (In_delete _ _ _ Hin)].
Qed.

Lemma titles_alter (s : string) (i : nat) (l : list SavedItem.t) :
  map SavedItem.title (alter (SavedItem.setStatus s) i l)
  = map SavedItem.title l.
Proof.
  revert i. induction l as [|y l IH]; intros [|i]; simpl; try reflexivity.
  f_equal. exact (IH i).
Qed.

Lemma wellKept_insert (db : DB) (_id : UserId) (movieCol : list SavedItem.t) :
  wellKept db -> distinctTitles movieCol -> wellKept (<[_id := movieCol]> db).
Proof.
  intros Hdb Hl u l. destruct (decide (_id = u)) as [<-|Hne].
  - rewrite lookup_insert_eq. now intros [= <-].
  - rewrite lookup_insert_ne by exact Hne. apply Hdb.
Qed.

(** X5. The three writing handlers keep the titles of every collection
    pairwise distinct: from a store where that holds, whatever the
    request and whatever the answer, the store after an add, a status
    update or a remove is such a store again. *)
Theorem handlers_keep_distinct_titles (db : DB) (_id : UserId)
    (id : Z) (posterPath title : string) (genres : list string)
    (movieId : Z) (status : string) :
  wellKept db ->
  wellKept (snd (addToMovieCollection db _id id posterPath title genres)) /\
  wellKept (snd (updateMovieStatus db _id movieId status)) /\
  wellKept (snd (deleteMovieFromCollection db _id movieId)).
Proof.
  intros Hdb. repeat split.
  - unfold addToMovieCollection.
    destruct (List.find (hasTitle title) _) eqn:Hf; [exact Hdb|]. simpl.
    apply wellKept_insert; [exact Hdb|].
    unfold distinctTitles. rewrite map_app. simpl. apply NoDup_snoc.
    + destruct (db !! _id) as [movieCol|] eqn:Hl; [exact (Hdb _ _ Hl) | constructor].
    + intros Hin. apply in_map_iff in Hin as (saved & Ht & Hin).
      exact (proj1 (find_hasTitle_None title _) Hf saved Hin Ht).
  - unfold updateMovieStatus, getMovieCollectionForUser.
    destruct (db !! _id) as [movieCol|] eqn:Hl; [|exact Hdb].
    destruct (findIndex (hasId movieId) movieCol); [|exact Hdb]. simpl.
    apply wellKept_insert; [exact Hdb|].
    unfold distinctTitles. rewrite titles_alter. exact (Hdb _ _ Hl).
  - unfold deleteMovieFromCollection, getMovieCollectionForUser.
    destruct (db !! _id) as [movieCol|] eqn:Hl; [|exact Hdb].
    destruct (findIndex (hasId movieId) movieCol); [|exact Hdb]. simpl.
    apply wellKept_insert; [exact Hdb|].
    apply titles_delete. exact (Hdb _ _ Hl).
Qed.

(** X6. The three writing handlers touch the collection of the
    requesting user only: the collection of any other user is after the
    call what it was before, whatever the request and the answer. *)
Theorem handlers_leave_other_users (db : DB) (_id other : UserId)
    (id : Z) (posterPath title : string) (genres : list string)
    (movieId : Z) (status : string) :
  other <> _id ->
  snd (addToMovieCollection db _id id posterPath title genres) !! other
  = db !! other /\
  snd (updateMovieStatus db _id movieId status) !! other = db !! other /\
  snd (deleteMovieFromCollection db _id movieId) !! other = db !! other.
Proof.
  intros Hne. assert (Hne' : _id <> other) by congruence. repeat split.
  - unfold addToMovieCollection.
    destruct (List.find (hasTitle title) _); [reflexivity|]. simpl.
    now rewrite lookup_insert_ne.
  - unfold updateMovieStatus, getMovieCollectionForUser.
    destruct (db !! _id) as [movieCol|]; [|reflexivity].
    destruct (findIndex (hasId movieId) movieCol); [|reflexivity]. simpl.
    now rewrite lookup_insert_ne.
  - unfold deleteMovieFromCollection, getMovieCollectionForUser.
    destruct (db !! _id) as [movieCol|]; [|reflexivity].
    destruct (findIndex (hasId movieId) movieCol); [|reflexivity]. simpl.
    now rewrite lookup_insert_ne.
Qed.

End CollectionManagerMore.

Lemma sample_wellKept : wellKept Sample.db.
Proof.
  intros u movieCol Hl. unfold Sample.db in Hl.
  apply lookup_singleton_Some in Hl as [_ <-].
  unfold distinctTitles. simpl.
  repeat (apply List.NoDup_cons; [simpl; intuition discriminate|]).
  apply List.NoDup_nil.
Qed.

Lemma update_first_match_sample :
  updateMovieStatus Sample.db "u1" 949 "to-watch"
  = (updated,
     <["u1" := [Sample.inception] ++ SavedItem.setStatus "to-watch" Sample.heat :: []]>
       Sample.db) /\
  getMovieCollection (snd (updateMovieStatus Sample.db "u1" 949 "to-watch")) "u1"
  = Json 200 (Movies true ([Sample.inception]
                           ++ SavedItem.setStatus "to-watch" Sample.heat :: [])).
Proof.
  apply (update_first_match Sample.db "u1" 949 "to-watch"
           [Sample.inception] [] Sample.heat).
  - reflexivity.
  - simpl. intros m' [<-|[]]. discriminate.
  - reflexivity.
Defined.

Lemma add_then_delete_sample :
  exists db1,
    addToMovieCollection "to-watch" Sample.db "u1" 603 "/matrix.jpg" "The Matrix" ["Action"]
    = (added, db1) /\
    deleteMovieFromCollection db1 "u1" 603
    = (removed, <["u1" := default [] (Sample.db !! "u1")]> Sample.db) /\
    (is_Some (Sample.db !! "u1") ->
     <["u1" := default [] (Sample.db !! "u1")]> Sample.db = Sample.db).
Proof.
  apply (add_then_delete "to-watch" Sample.db "u1" 603 "/matrix.jpg" "The Matrix"
           ["Action"]).
  vm_compute. intros saved [<-|[<-|[]]]; split; discriminate.
Defined.

Lemma add_twice_conflict_sample :
  exists db1,
    addToMovieCollection "to-watch" Sample.db "u1" 603 "/matrix.jpg" "The Matrix" ["Action"]
    = (added, db1) /\
    forall id' posterPath' genres',
      addToMovieCollection "to-watch" db1 "u1" id' posterPath' "The Matrix" genres'
      = (conflict, db1).
Proof.
  apply (add_twice_conflict "to-watch" Sample.db "u1" 603 "/matrix.jpg" "The Matrix"
           ["Action"]).
  vm_compute. intros saved [<-|[<-|[]]]; discriminate.
Defined.

Lemma handlers_keep_distinct_titles_sample :
  wellKept (snd (addToMovieCollection "to-watch" Sample.db "u1" 603 "/matrix.jpg"
                   "The Matrix" ["Action"])) /\
  wellKept (snd (updateMovieStatus Sample.db "u1" 949 "to-watch")) /\
  wellKept (snd (deleteMovieFromCollection Sample.db "u1" 27205)).
Proof.
  destruct (handlers_keep_distinct_titles "to-watch" Sample.db "u1" 603 "/matrix.jpg"
              "The Matrix" ["Action"] 949 "to-watch" sample_wellKept)
    as (Hadd & Hupdate & _).
  destruct (handlers_keep_distinct_titles "to-watch" Sample.db "u1" 603 "/matrix.jpg"
              "The Matrix" ["Action"] 27205 "to-watch" sample_wellKept)
    as (_ & _ & Hdelete).
  exact (conj Hadd (conj Hupdate Hdelete)).
Defined.

Lemma handlers_leave_other_users_sample :
  snd (addToMovieCollection "to-watch" Sample.db "u1" 603 "/matrix.jpg"
         "The Matrix" ["Action"]) !! "u2"
  = Sample.db !! "u2" /\
  snd (updateMovieStatus Sample.db "u1" 949 "to-watch") !! "u2" = Sample.db !! "u2" /\
  snd (deleteMovieFromCollection Sample.db "u1" 949) !! "u2" = Sample.db !! "u2".
Proof.
  apply (handlers_leave_other_users "to-watch" Sample.db "u1" "u2" 603 "/matrix.jpg"
           "The Matrix" ["Action"] 949 "to-watch").
  discriminate.
Defined.

(** ** More on the recommendation loop *)

Lemma take_In {A} (n : nat) (l : list A) (x : A) : In x (take n l) -> In x l.
Proof.
  revert n. induction l as [|y l IH]; intros [|n]; simpl; intros H;
    try (destruct H; fail).
  destruct H as [->|H]; [left; reflexivity | right; exact (IH n H)].
Qed.

Lemma NoDup_map_filter {A B} (f : A -> B) (p : A -> bool) (l : list A) :
  List.NoDup (map f l) -> List.NoDup (map f (List.filter p l)).
Proof.
  induction l as [|x l IH]; simpl; intros Hnd; [exact Hnd|].
  apply List.NoDup_cons_iff in Hnd as [Hx Hnd].
  destruct (p x); simpl; [|exact (IH Hnd)].
  apply List.NoDup_cons_iff. split; [|exact (IH Hnd)].
  intros Hin. apply Hx. apply in_map_iff in Hin as (y & Hy & Hin).
  apply List.filter_In in Hin as [Hin _].
  apply in_map_iff. exists y. split; assumption.
Qed.

Lemma NoDup_map_take {A B} (f : A -> B) (n : nat) (l : list A) :
  List.NoDup (map f l) -> List.NoDup (map f (take n l)).
Proof.
  revert n. induction l as [|x l IH]; intros [|n]; simpl; intros Hnd;
    try apply List.NoDup_nil.
  apply List.NoDup_cons_iff in Hnd as [Hx Hnd].
  apply List.NoDup_cons_iff. split; [|exact (IH n Hnd)].
  intros Hin. apply Hx. apply in_map_iff in Hin as (y & Hy & Hin).
  apply in_map_iff. exists y. split; [exact Hy | exact (take_In _ _ _ Hin)].
Qed.

Lemma fresh_not_recommended (ids : list Z) (rec : list CatalogItem.t)
    (m : CatalogItem.t) :
  fresh ids rec m = true -> ~ In (CatalogItem.id m) (map CatalogItem.id rec).
Proof.
  unfold fresh. intros H. apply andb_prop in H as [_ H].
  destruct (List.find _ rec) eqn:Hf; [discriminate|].
  intros Hin. apply in_map_iff in Hin as (r & Hr & Hin).
  pose proof (find_none _ _ Hf r Hin) as Hne. simpl in Hne.
  rewrite Hr, Z.eqb_refl in Hne. discriminate.
Qed.

Section RecommendationMore.

Variable genreId : string -> option string.
Variable discover : nat -> nat -> string -> option (list CatalogItem.t).
Variable store : nat -> DB.
Variable _id : UserId.

Local Abbreviation iteration := (iteration genreId discover store _id).
Local Abbreviation loop := (loop genreId discover store _id).
Local Abbreviation sendAll := (sendAll genreId).
Local Abbreviation recommendMoviesByGenre :=
  (recommendMoviesByGenre genreId discover store _id).

Lemma loop_S (fuel : nat) (st : LoopState) :
  loop (S fuel) st
  = if continue st
    then match iteration st with
         | inl (error, l) => Some (Aborted error l)
         | inr st' => loop fuel st'
         end
    else Some (Exited st).
Proof. reflexivity. Qed.

(** A step of the loop that ends in an exit. *)
Lemma loop_exited (fuel : nat) (st st' : LoopState) :
  loop fuel st = Some (Exited st') ->
  (continue st = false /\ st' = st) \/
  (exists fuel' st1,
     fuel = S fuel' /\ continue st = true /\ iteration st = inr st1 /\
     loop fuel' st1 = Some (Exited st')).
Proof.
  destruct fuel as [|fuel]; simpl.
  - destruct (continue st); [discriminate|]. intros [= <-]. left. auto.
  - destruct (continue st); [|intros [= <-]; left; auto].
    destruct (iteration st) as [[error l]|st1] eqn:Hit; [discriminate|].
    intros H. right. exists fuel, st1. auto.
Qed.

(** X7. A 200 answer has at least one and at most 20 movies. *)
Theorem recommend_size (userGenres : list Genre)
    (ms : list CatalogItem.t) (l : Log) :
  recommendMoviesByGenre userGenres = Some (Json 200 (Results ms), l) ->
  0 < length ms <= 20.
Proof.
  intros H. split; [|exact (recommend_at_most_20 _ _ _ _ _ _ _ H)].
  unfold recommendMoviesByGenre in H.
  destruct (loop 40 (start userGenres)) as [[error l'|st]|]; try discriminate.
  destruct (length (recommendedMovies st) =? 0) eqn:Hlen; [discriminate|].
  injection H as <- _. apply Nat.eqb_neq in Hlen. lia.
Qed.

Lemma iteration_distinct (st st' : LoopState) :
  distinctIds (recommendedMovies st) ->
  iteration st = inr st' ->
  (forall p, In p (passes (log st')) -> distinctIds (movies p)) ->
  distinctIds (recommendedMovies st').
Proof.
  intros Hrec Hit Hbatch.
  destruct (iteration_inr _ _ _ _ _ _ Hit) as (sent & rs & _ & _ & Hrec' & Hlog & _).
  cbv zeta in *. rewrite Hrec'. unfold distinctIds.
  apply NoDup_map_take. rewrite map_app. apply List.NoDup_app.
  - exact Hrec.
  - apply NoDup_map_filter.
    refine (Hbatch (mkPass _ _ _) _). rewrite Hlog. simpl.
    apply in_or_app. right. left. reflexivity.
  - intros x Hx Hin. apply in_map_iff in Hin as (m & <- & Hm).
    apply List.filter_In in Hm as [_ Hfresh].
    exact (fresh_not_recommended _ _ _ Hfresh Hx).
Qed.

Lemma iteration_passes (st st' : LoopState) (p : Pass) :
  iteration st = inr st' -> In p (passes (log st)) -> In p (passes (log st')).
Proof.
  intros Hit Hin.
  destruct (iteration_inr _ _ _ _ _ _ Hit) as (sent & rs & _ & _ & _ & Hlog & _).
  cbv zeta in Hlog. rewrite Hlog. simpl. apply in_or_app. left. exact Hin.
Qed.

Lemma loop_passes (fuel : nat) (st st' : LoopState) (p : Pass) :
  loop fuel st = Some (Exited st') ->
  In p (passes (log st)) -> In p (passes (log st')).
Proof.
  revert st. induction fuel as [|fuel IH]; intros st H Hin;
    destruct (loop_exited _ _ _ H) as [[_ ->]|(fuel' & st1 & Hf & _ & Hit & Hl)];
    try assumption; try discriminate.
  injection Hf as <-. apply (IH st1 Hl). exact (iteration_passes _ _ _ Hit Hin).
Qed.

Lemma loop_distinct (fuel : nat) (st st' : LoopState) :
  distinctIds (recommendedMovies st) ->
  loop fuel st = Some (Exited st') ->
  (forall p, In p (passes (log st')) -> distinctIds (movies p)) ->
  distinctIds (recommendedMovies st').
Proof.
  revert st. induction fuel as [|fuel IH]; intros st Hrec H Hbatch;
    destruct (loop_exited _ _ _ H) as [[_ ->]|(fuel' & st1 & Hf & _ & Hit & Hl)];
    try assumption; try discriminate.
  injection Hf as <-. apply (IH st1); [|exact Hl|exact Hbatch].
  apply (iteration_distinct st st1 Hrec Hit).
  intros p Hp. apply Hbatch. exact (loop_passes _ _ _ _ Hl Hp).
Qed.

(** X8. When the movies fetched in each completed iteration have
    pairwise distinct ids (no movie comes back for two genres of the
    same round), the movies of a 200 answer have pairwise distinct ids:
    across iterations the filter never lets a repeated id through. *)
Theorem recommend_distinct_ids (userGenres : list Genre)
    (ms : list CatalogItem.t) (l : Log) :
  recommendMoviesByGenre userGenres = Some (Json 200 (Results ms), l) ->
  (forall p, In p (passes l) -> distinctIds (movies p)) ->
  distinctIds ms.
Proof.
  intros H Hbatch.
  destruct (recommend_results _ _ _ _ _ _ _ H) as (st & Hloop & -> & ->).
  refine (loop_distinct 40 (start userGenres) st _ Hloop Hbatch).
  apply List.NoDup_nil.
Qed.

Lemma continue_true (st : LoopState) :
  continue st = true ->
  length (recommendedMovies st) < 20 /\ length (genres st) < 20.
Proof.
  unfold continue, maxMovies. intros H. apply andb_prop in H as [Hr Hg].
  apply Nat.ltb_lt in Hr, Hg. auto.
Qed.

Lemma iteration_null (st : LoopState) :
  In None (genres st) -> exists error l, iteration st = inl (error, l).
Proof.
  intros Hin. destruct (sendAll_null genreId _ Hin) as (sent & error & Hs & _).
  unfold iteration. cbv zeta. rewrite Hs. eauto.
Qed.

(** Once the null entry is in the genre list and the loop goes on, no
    exit through the loop condition is left. *)
Lemma loop_null (fuel : nat) (st st' : LoopState) :
  In None (genres st) -> continue st = true ->
  loop fuel st = Some (Exited st') -> False.
Proof.
  intros Hin Hc H.
  destruct (loop_exited _ _ _ H) as [[Hc' _]|(fuel' & st1 & _ & _ & Hit & _)].
  - congruence.
  - destruct (iteration_null st Hin) as (error & l & Hit'). congruence.
Qed.

Lemma loop_few (fuel : nat) (st st' : LoopState) :
  ~ In None (genres st) ->
  length (genres st) < 19 ->
  length (recommendedMovies st) <= 20 ->
  loop fuel st = Some (Exited st') ->
  length (recommendedMovies st') = 20.
Proof.
  revert st. induction fuel as [|fuel IH]; intros st Hnn Hg Hr H;
    destruct (loop_exited _ _ _ H) as [[Hc ->]|(fuel' & st1 & Hf & Hc & Hit & Hl)];
    try discriminate;
    try (apply continue_false in Hc; lia).
  injection Hf as <-. apply continue_true in Hc as [Hr' _].
  destruct (iteration_inr genreId discover store _id _ _ Hit)
    as (sent & rs & _ & _ & Hrec & _ & Hz & Hp).
  cbv zeta in *. set (filtered := List.filter _ _) in *.
  assert (Hlen : length (recommendedMovies st1) <= 20)
    by (rewrite Hrec, length_take; unfold maxMovies; lia).
  destruct (Nat.eq_dec (length filtered) 0) as [Hn|Hn].
  - exfalso. destruct (Hz Hn) as [Hg1 _].
    apply (loop_null fuel st1 st'); [| |exact Hl].
    + rewrite Hg1. apply in_or_app. right. left. reflexivity.
    + unfold continue, maxMovies. apply andb_true_intro.
      rewrite Hrec, Hg1, length_take, !List.length_app, Hn. cbn [length].
      split; apply Nat.ltb_lt; lia.
  - destruct (Hp Hn) as [Hg1 _]. apply (IH st1); try assumption.
    + now rewrite Hg1.
    + now rewrite Hg1.
Qed.

(** X9. For a user with fewer than 19 truthy genre tags the handler
    either forwards an error or answers 200 with exactly 20 movies: it
    never answers 400 and never answers a shorter list. *)
Theorem few_genres_full_or_error (userGenres : list Genre)
    (r : Response) (l : Log) :
  length (List.filter truthy userGenres) < 19 ->
  recommendMoviesByGenre userGenres = Some (r, l) ->
  (exists error, r = Next error) \/
  (exists ms, r = Json 200 (Results ms) /\ length ms = 20).
Proof.
  intros Hfew. unfold recommendMoviesByGenre.
  destruct (loop 40 (start userGenres)) as [[error l'|st]|] eqn:Hl;
    [intros [= <- _]; left; eauto | | discriminate].
  assert (Hlen : length (recommendedMovies st) = 20).
  { apply (loop_few 40 (start userGenres) st); simpl; try assumption; [|lia].
    intros Hin. apply List.filter_In in Hin as [_ Hin]. discriminate. }
  rewrite Hlen. simpl. intros [= <- _]. right. eauto.
Qed.

Lemma sendAll_length (gs : list Genre) (sent : list string) :
  sendAll gs = (sent, None) -> length sent = length gs.
Proof.
  revert sent. induction gs as [|g gs IH]; simpl; intros sent.
  - now intros [= <-].
  - destruct (withGenres genreId g); [discriminate|].
    destruct (sendAll gs) as [sent' thrown]. intros [= <- ->].
    simpl. f_equal. now apply IH.
Qed.

(** X10. When the catalog rejects every request, the handler never
    answers 200: it forwards an error, or, for a user with 20 or more
    truthy tags, answers 400 without having sent a request. *)
Theorem catalog_down_no_results (userGenres : list Genre)
    (r : Response) (l : Log) :
  (forall k i g, discover k i g = None) ->
  recommendMoviesByGenre userGenres = Some (r, l) ->
  (exists error, r = Next error) \/
  (r = Json 400 (Message false "No recommended movies found") /\
   l = mkLog [] []).
Proof.
  intros Hdown. unfold recommendMoviesByGenre, start.
  destruct (List.filter truthy userGenres) as [|g gs] eqn:Hf.
  - simpl. intros [= <- _]. left. eauto.
  - change 40 with (S 39). rewrite loop_S.
    destruct (continue _) eqn:Hc.
    + unfold iteration. cbv zeta. cbn [genres log passes requests].
      destruct (sendAll (g :: gs)) as [sent [error|]] eqn:Hs.
      * intros [= <- _]. left. eauto.
      * apply sendAll_length in Hs.
        destruct sent as [|s sent]; [discriminate|].
        simpl. rewrite Hdown. intros [= <- _]. left. eauto.
    + simpl. intros [= <- <-]. right. auto.
Qed.

Lemma sendAll_sent (gs : list Genre) (sent : list string) (thrown : option Thrown) :
  sendAll gs = (sent, thrown) ->
  forall g, In g sent -> exists s, In (Some s) gs /\ genreId s = Some g.
Proof.
  revert sent thrown. induction gs as [|genre gs IH]; simpl; intros sent thrown.
  - intros [= <- _] g [].
  - unfold withGenres. destruct genre as [s|]; [|intros [= <- _] g []].
    destruct (genreId s) as [g0|] eqn:Hs; [|intros [= <- _] g []].
    destruct (sendAll gs) as [sent' thrown']. intros [= <- _] g [<-|Hin].
    + exists s. auto.
    + destruct (IH sent' thrown' eq_refl g Hin) as (s' & Hin' & Hs'). exists s'. auto.
Qed.

Lemma awaitAll_results (k i : nat) (sent : list string)
    (rs : list (list CatalogItem.t)) :
  awaitAll discover k i sent = Some rs ->
  forall results, In results rs ->
    exists j g, In g sent /\ discover k j g = Some results.
Proof.
  revert i rs. induction sent as [|g sent IH]; simpl; intros i rs.
  - intros [= <-] results [].
  - destruct (discover k i g) as [r0|] eqn:Hd; [|discriminate].
    destruct (awaitAll discover k (S i) sent) as [rest|] eqn:Ha; [|discriminate].
    intros [= <-] results [<-|Hin].
    + exists i, g. auto.
    + destruct (IH _ _ Ha results Hin) as (j & g' & Hg' & Hd'). exists j, g'. auto.
Qed.

Lemma take_le_In {A} (n m : nat) (l : list A) (x : A) :
  n <= m -> In x (take n l) -> In x (take m l).
Proof.
  revert n m. induction l as [|y l IH]; intros [|n] [|m] Hle; simpl; try tauto; try lia.
  intros [->|H]; [left; reflexivity | right; apply (IH n m); [lia | exact H]].
Qed.

Lemma iteration_offered (userGenres : list Genre) (st st' : LoopState) :
  (forall g, In g (genres st) -> g = None \/ In g userGenres) ->
  moviesPerGenre st <= 10 ->
  (forall m, In m (recommendedMovies st) -> offered genreId discover userGenres m) ->
  iteration st = inr st' ->
  (forall g, In g (genres st') -> g = None \/ In g userGenres) /\
  moviesPerGenre st' <= 10 /\
  (forall m, In m (recommendedMovies st') -> offered genreId discover userGenres m).
Proof.
  intros Hg Hn Hrec Hit.
  destruct (iteration_inr genreId discover store _id _ _ Hit)
    as (sent & rs & Hs & Ha & Hrec' & _ & Hz & Hp).
  cbv zeta in *. set (filtered := List.filter _ _) in *.
  assert (Hboth : (forall g, In g (genres st') -> g = None \/ In g userGenres) /\
                  moviesPerGenre st' <= 10).
  { destruct (Nat.eq_dec (length filtered) 0) as [Hlen|Hlen].
    - destruct (Hz Hlen) as [-> ->]. split; [|lia].
      intros g Hin. apply in_app_or in Hin as [Hin|[<-|[]]]; auto.
    - destruct (Hp Hlen) as [-> ->]. split; [exact Hg | lia]. }
  destruct Hboth as [Hg' Hn']. split; [exact Hg'|]. split; [exact Hn'|].
  intros m Hm. rewrite Hrec' in Hm. apply take_In, in_app_or in Hm as [Hm|Hm].
  - exact (Hrec m Hm).
  - apply List.filter_In in Hm as [Hm _].
    apply in_flat_map in Hm as (results & Hres & Hm).
    destruct (awaitAll_results _ _ _ _ Ha results Hres) as (j & g & Hsent & Hd).
    destruct (sendAll_sent _ _ _ Hs g Hsent) as (s & Hin & Hid).
    exists s, g, (length (passes (log st))), j, results.
    split; [|split; [exact Hid | split; [exact Hd | exact (take_le_In _ _ _ _ Hn Hm)]]].
    destruct (Hg _ Hin) as [Hnone|Huser]; [discriminate | exact Huser].
Qed.

Lemma loop_offered (userGenres : list Genre) (fuel : nat) (st st' : LoopState) :
  (forall g, In g (genres st) -> g = None \/ In g userGenres) ->
  moviesPerGenre st <= 10 ->
  (forall m, In m (recommendedMovies st) -> offered genreId discover userGenres m) ->
  loop fuel st = Some (Exited st') ->
  forall m, In m (recommendedMovies st') -> offered genreId discover userGenres m.
Proof.
  revert st. induction fuel as [|fuel IH]; intros st Hg Hn Hrec H;
    destruct (loop_exited _ _ _ H) as [[_ ->]|(fuel' & st1 & Hf & _ & Hit & Hl)];
    try assumption; try discriminate.
  injection Hf as <-.
  destruct (iteration_offered userGenres st st1 Hg Hn Hrec Hit) as (Hg1 & Hn1 & Hrec1).
  exact (IH st1 Hg1 Hn1 Hrec1 Hl).
Qed.

(** X11. Every movie of a 200 answer was offered by the catalog for one
    of the user's own tags: it is among the first ten results of the
    answer to a request sent with the id of a tag of the user. *)
Theorem recommended_offered (userGenres : list Genre)
    (ms : list CatalogItem.t) (l : Log) (m : CatalogItem.t) :
  recommendMoviesByGenre userGenres = Some (Json 200 (Results ms), l) ->
  In m ms ->
  offered genreId discover userGenres m.
Proof.
  intros H Hm.
  destruct (recommend_results genreId discover store _id _ _ _ H)
    as (st & Hloop & -> & _).
  refine (loop_offered userGenres 40 (start userGenres) st _ _ _ Hloop m Hm).
  - simpl. intros g Hin. right. apply List.filter_In in Hin. tauto.
  - simpl. lia.
  - intros m' [].
Qed.

Lemma awaitAll_fixed (k i : nat) (sent : list string) :
  (forall k i g, discover k i g = discover 0 i g) ->
  awaitAll discover k i sent = awaitAll discover 0 i sent.
Proof.
  intros Hfix. revert i. induction sent as [|g sent IH]; simpl; intros i.
  - reflexivity.
  - now rewrite (Hfix k i g), IH.
Qed.

(** A movie of a batch does not pass the filter a second time, once the
    movies the filter kept the first time are the recommended ones. *)
Lemma fresh_again (ids : list Z) (batch : list CatalogItem.t) (m : CatalogItem.t) :
  In m batch -> fresh ids (List.filter (fresh ids []) batch) m = false.
Proof.
  intros Hin. unfold fresh at 1.
  destruct (includes ids (CatalogItem.id m)) eqn:Hinc; [reflexivity|]. simpl.
  destruct (List.find _ _) eqn:Hf; [reflexivity|]. exfalso.
  assert (Hm : In m (List.filter (fresh ids []) batch)).
  { apply List.filter_In. split; [exact Hin|]. unfold fresh. now rewrite Hinc. }
  pose proof (find_none _ _ Hf m Hm) as Hne. simpl in Hne.
  rewrite Z.eqb_refl in Hne. discriminate.
Qed.

Lemma refilter_nil (ids : list Z) (batch : list CatalogItem.t) :
  List.filter (fresh ids (List.filter (fresh ids []) batch)) batch = [].
Proof.
  assert (H : forall l, (forall m, In m l -> In m batch) ->
                        List.filter (fresh ids (List.filter (fresh ids []) batch)) l = []).
  { induction l as [|m l IH]; simpl; intros Hl; [reflexivity|].
    rewrite fresh_again by (apply Hl; left; reflexivity).
    apply IH. intros m' Hm'. apply Hl. right. exact Hm'. }
  apply H. auto.
Qed.

(** X12. With a catalog and a store that answer the same in every
    iteration and fewer than 19 truthy tags, a 200 answer is the work of
    the first iteration alone: exactly one iteration completed, it kept
    at least 20 movies, and the answer is the first 20 of them. Further
    rounds never add to an answer. *)
Theorem fixed_world_single_pass (userGenres : list Genre)
    (ms : list CatalogItem.t) (l : Log) :
  (forall k i g, discover k i g = discover 0 i g) ->
  (forall k, store k = store 0) ->
  length (List.filter truthy userGenres) < 19 ->
  recommendMoviesByGenre userGenres = Some (Json 200 (Results ms), l) ->
  exists p,
    passes l = [p] /\ 20 <= length (filteredMovies p) /\
    ms = take 20 (filteredMovies p).
Proof.
  intros Hcat Hstore Hfew H.
  destruct (recommend_results genreId discover store _id _ _ _ H)
    as (st & Hloop & -> & ->). clear H.
  destruct (loop_exited _ _ _ Hloop)
    as [[Hc _]|(fuel1 & st1 & _ & _ & Hit1 & Hloop1)].
  { apply continue_false in Hc. simpl in Hc. lia. }
  destruct (iteration_inr genreId discover store _id _ _ Hit1)
    as (sent & rs & Hs & Ha & Hrec1 & Hlog1 & Hz1 & Hp1).
  cbv zeta in *. simpl in Hs, Ha, Hrec1, Hlog1, Hz1, Hp1.
  set (batch := flat_map (take 10) rs) in *.
  set (ids := savedIds (store 0) _id) in *.
  set (kept := List.filter (fresh ids []) batch) in *.
  assert (Hg1 : length (genres st1) < 20).
  { destruct (Nat.eq_dec (length kept) 0) as [Hn|Hn].
    - destruct (Hz1 Hn) as [-> _]. rewrite List.length_app. simpl. lia.
    - destruct (Hp1 Hn) as [-> _]. lia. }
  destruct (loop_exited _ _ _ Hloop1)
    as [[Hc1 ->]|(fuel2 & st2 & _ & Hc1 & Hit2 & Hloop2)].
  - exists (mkPass ids batch kept). rewrite Hlog1, Hrec1. simpl.
    split; [reflexivity|]. split; [|reflexivity].
    apply continue_false in Hc1. rewrite Hrec1, length_take in Hc1.
    unfold maxMovies in Hc1. lia.
  - exfalso. apply continue_true in Hc1 as [Hr1 _].
    destruct (Nat.eq_dec (length kept) 0) as [Hn|Hn].
    + destruct (Hz1 Hn) as [Hgen1 _].
      destruct (iteration_null st1) as (error & l' & Hit2'); [|congruence].
      rewrite Hgen1. apply in_or_app. right. left. reflexivity.
    + destruct (Hp1 Hn) as [Hgen1 Hmpg1].
      assert (Hkept : recommendedMovies st1 = kept).
      { rewrite Hrec1. apply take_ge.
        rewrite Hrec1, length_take in Hr1. unfold maxMovies in *. lia. }
      destruct (iteration_inr genreId discover store _id _ _ Hit2)
        as (sent2 & rs2 & Hs2 & Ha2 & Hrec2 & _ & Hz2 & _).
      cbv zeta in *.
      rewrite Hgen1, Hs in Hs2. injection Hs2 as <-.
      rewrite awaitAll_fixed, Ha in Ha2 by exact Hcat. injection Ha2 as <-.
      rewrite Hmpg1, Hstore, Hkept in Hz2, Hrec2.
      fold batch ids in Hz2, Hrec2.
      pose proof (refilter_nil ids batch) as Hnil. fold kept in Hnil.
      rewrite Hnil in Hz2, Hrec2.
      destruct (Hz2 eq_refl) as [Hgen2 _].
      apply (loop_null fuel2 st2 st); [| |exact Hloop2].
      * rewrite Hgen2. apply in_or_app. right. left. reflexivity.
      * unfold continue, maxMovies. apply andb_true_intro.
        rewrite Hrec2, Hgen2, Hgen1, app_nil_r, length_take, List.length_app.
        cbn [length]. rewrite Hkept in Hr1.
        split; apply Nat.ltb_lt; lia.
Qed.

Lemma sendAll_le (gs : list Genre) (sent : list string) (thrown : option Thrown) :
  sendAll gs = (sent, thrown) -> length sent <= length gs.
Proof.
  revert sent thrown. induction gs as [|g gs IH]; simpl; intros sent thrown.
  - intros [= <- _]. simpl. lia.
  - destruct (withGenres genreId g); [intros [= <- _]; simpl; lia|].
    destruct (sendAll gs) as [sent' thrown'] eqn:Hs. intros [= <- _].
    simpl. specialize (IH _ _ eq_refl). lia.
Qed.

Lemma loop_requests (fuel : nat) (st : LoopState) (e : LoopEnd) :
  loop fuel st = Some e ->
  length (requests (endLog e)) <= length (requests (log st)) + 19 * budget st.
Proof.
  revert st. induction fuel as [|fuel IH]; intros st; simpl.
  - destruct (continue st); [discriminate|]. intros [= <-]. simpl. lia.
  - destruct (continue st) eqn:Hc; [|intros [= <-]; simpl; lia].
    pose proof (continue_budget _ Hc) as Hb.
    apply continue_true in Hc as Hlt. destruct Hlt as [_ Hg].
    destruct (iteration st) as [[error l]|st1] eqn:Hit.
    + intros [= <-]. simpl. unfold iteration in Hit. cbv zeta in Hit.
      destruct (sendAll (genres st)) as [sent thrown] eqn:Hs.
      apply sendAll_le in Hs.
      destruct thrown as [error'|].
      * injection Hit as _ <-. simpl. rewrite List.length_app. lia.
      * destruct (awaitAll discover _ 0 sent); [|injection Hit as _ <-; simpl;
                                                  rewrite List.length_app; lia].
        destruct (length _ =? 0); discriminate.
    + intros H. specialize (IH st1 H).
      pose proof (iteration_budget genreId discover store _id _ _ Hc Hit) as Hdec.
      destruct (iteration_inr genreId discover store _id _ _ Hit)
        as (sent & rs & Hs & _ & _ & Hlog & _).
      cbv zeta in Hlog. apply sendAll_le in Hs.
      rewrite Hlog in IH. simpl in IH. rewrite List.length_app in IH. lia.
Qed.

(** X13. Whatever the catalog and the store answer, one call of the
    handler sends at most 760 discover requests: at most 19 in each of
    at most 40 iterations. *)
Theorem requests_bounded (userGenres : list Genre) (r : Response) (l : Log) :
  recommendMoviesByGenre userGenres = Some (r, l) ->
  length (requests l) <= 760.
Proof.
  unfold recommendMoviesByGenre.
  destruct (loop 40 (start userGenres)) as [e|] eqn:Hl; [|discriminate].
  pose proof (loop_requests _ _ _ Hl) as Hreq.
  pose proof (budget_le_40 (start userGenres)) as Hb. simpl in Hreq.
  destruct e as [error l'|st]; simpl in Hreq.
  - intros [= _ <-]. lia.
  - destruct (length (recommendedMovies st) =? 0); intros [= _ <-]; lia.
Qed.

End RecommendationMore.

(** The theorems of the last section at the sample catalog. *)

Ltac distinct_literals :=
  repeat (apply List.NoDup_cons; [simpl; intuition discriminate|]);
  apply List.NoDup_nil.

Lemma recommend_size_sample :
  exists ms l,
    recommendMoviesByGenre Sample.genreId Sample.discover Sample.storeWithThird "u1"
      [Some Sample.action; Some Sample.adventure; Some Sample.comedy]
    = Some (Json 200 (Results ms), l) /\
    0 < length ms <= 20.
Proof.
  eexists _, _. split; [vm_compute; reflexivity|].
  eapply (recommend_size Sample.genreId Sample.discover Sample.storeWithThird "u1"
            [Some Sample.action; Some Sample.adventure; Some Sample.comedy]).
  vm_compute. reflexivity.
Defined.

Lemma recommend_distinct_ids_sample :
  exists ms l,
    recommendMoviesByGenre Sample.genreId Sample.discover Sample.emptyStore "u1"
      [Some Sample.action; Some Sample.comedy]
    = Some (Json 200 (Results ms), l) /\
    distinctIds ms.
Proof.
  eexists _, _. split; [vm_compute; reflexivity|].
  eapply (recommend_distinct_ids Sample.genreId Sample.discover Sample.emptyStore "u1"
            [Some Sample.action; Some Sample.comedy]).
  - vm_compute. reflexivity.
  - intros p [<-|[]]. unfold distinctIds. simpl. distinct_literals.
Defined.

Lemma few_genres_full_or_error_sample :
  exists r l,
    recommendMoviesByGenre Sample.genreId Sample.discover Sample.emptyStore "u1"
      [Some Sample.action]
    = Some (r, l) /\
    ((exists error, r = Next error) \/
     (exists ms, r = Json 200 (Results ms) /\ length ms = 20)).
Proof.
  eexists _, _. split; [vm_compute; reflexivity|].
  eapply (few_genres_full_or_error Sample.genreId Sample.discover Sample.emptyStore "u1"
            [Some Sample.action]).
  - vm_compute. lia.
  - vm_compute. reflexivity.
Defined.

Lemma catalog_down_no_results_sample :
  exists r l,
    recommendMoviesByGenre Sample.genreId Sample.downCatalog Sample.sameStore "u1"
      [Some Sample.action; Some Sample.comedy]
    = Some (r, l) /\
    ((exists error, r = Next error) \/
     (r = Json 400 (Message false "No recommended movies found") /\
      l = mkLog [] [])).
Proof.
  eexists _, _. split; [vm_compute; reflexivity|].
  eapply (catalog_down_no_results Sample.genreId Sample.downCatalog Sample.sameStore "u1"
            [Some Sample.action; Some Sample.comedy]).
  - reflexivity.
  - vm_compute. reflexivity.
Defined.

Lemma recommended_offered_sample :
  exists ms l,
    recommendMoviesByGenre Sample.genreId Sample.discover Sample.storeWithThird "u1"
      [Some Sample.action; Some Sample.adventure; Some Sample.comedy]
    = Some (Json 200 (Results ms), l) /\
    In (Sample.film 20) ms /\
    offered Sample.genreId Sample.discover
      [Some Sample.action; Some Sample.adventure; Some Sample.comedy]
      (Sample.film 20).
Proof.
  eexists _, _. split; [vm_compute; reflexivity|].
  split; [simpl; tauto|].
  eapply (recommended_offered Sample.genreId Sample.discover Sample.storeWithThird "u1"
            [Some Sample.action; Some Sample.adventure; Some Sample.comedy]).
  - vm_compute. reflexivity.
  - simpl. tauto.
Defined.

Lemma fixed_world_single_pass_sample :
  exists ms l,
    recommendMoviesByGenre Sample.genreId Sample.discover Sample.emptyStore "u1"
      [Some Sample.action; Some Sample.comedy]
    = Some (Json 200 (Results ms), l) /\
    exists p,
      passes l = [p] /\ 20 <= length (filteredMovies p) /\
      ms = take 20 (filteredMovies p).
Proof.
  eexists _, _. split; [vm_compute; reflexivity|].
  eapply (fixed_world_single_pass Sample.genreId Sample.discover Sample.emptyStore "u1"
            [Some Sample.action; Some Sample.comedy]).
  - reflexivity.
  - reflexivity.
  - vm_compute. lia.
  - vm_compute. reflexivity.
Defined.

Lemma requests_bounded_sample :
  exists r l,
    recommendMoviesByGenre Sample.genreId Sample.discover Sample.emptyStore "u1"
      [Some Sample.action]
    = Some (r, l) /\
    length (requests l) <= 760.
Proof.
  eexists _, _. split; [vm_compute; reflexivity|].
  eapply (requests_bounded Sample.genreId Sample.discover Sample.emptyStore "u1"
            [Some Sample.action]).
  vm_compute. reflexivity.
Defined.
